(** * useful_scripts: the four FASTA utilities, embedded and verified

    - [flu_parse_header.py]  (Header Splitter)            : [Module FluParseHeader]
    - [seqid_validate.py]    (Identifier Cross-Referencer): [Module SeqidValidate]
    - [trim_fasta.py]        (Sequence Trimmer)           : [Module TrimFasta]
    - [rmdup.py]             (Duplicate Remover)          : [Module Rmdup]

    Python [str] values are lists of characters ([list ascii], a character
    being read as a code point below 256); Python [int] values are [Z] where
    they can be negative (slice bounds, exit statuses) and [nat] where they
    are lengths and counts; a Python [set] of strings is a [gset]; an
    exception that leaves a function is the [Raise] branch of [result]. *)

From Stdlib Require Import Ascii String ZArith List Lia.
From stdpp Require Import base decidable option list sets gmap strings pretty.

Local Open Scope list_scope.

(** ** Python primitives used by the scripts *)

Module Py.

Abbreviation str := (list ascii) (only parsing).

(** A string literal. *)
Definition lit (s : string) : str := list_ascii_of_string s.

(** Exceptions that the scripts can let escape. *)
Inductive exn : Type :=
| ValueError                                  (* max() of an empty iterable *)
| KeyError (key : str)                        (* missing DataFrame column *)
| OSError (path : str)                        (* open() or process start failed *)
| CalledProcessError (returncode : Z) (cmd : list str).

Inductive result (A : Type) : Type :=
| Ok (a : A)
| Raise (e : exn).
Arguments Ok {A} a.
Arguments Raise {A} e.

(** Sequencing: an exception skips the rest ([x ← r; k] below). *)
#[global] Instance result_bind : MBind result := fun A B k r =>
  match r with
  | Ok a => k a
  | Raise e => Raise e
  end.

Definition raised {A} (r : result A) : Prop := exists e, r = Raise e.

(** [str.isspace] on code points below 256: TAB..CR, FS..US, space,
    NEL (0x85) and NBSP (0xA0). *)
Definition isspace (c : ascii) : bool :=
  let n := nat_of_ascii c in
  ((9 <=? n) && (n <=? 13)) || ((28 <=? n) && (n <=? 32))
  || (n =? 133) || (n =? 160).

(** [s.lstrip()], [s.rstrip()], [s.strip()] *)
Fixpoint lstrip (s : str) : str :=
  match s with
  | c :: s' => if isspace c then lstrip s' else s
  | [] => []
  end.

Definition rstrip (s : str) : str := rev (lstrip (rev s)).

Definition strip (s : str) : str := rstrip (lstrip s).

(** [s.startswith(c)] for a one-character prefix *)
Definition startswith (c : ascii) (s : str) : bool :=
  match s with
  | c' :: _ => bool_decide (c' = c)
  | [] => false
  end.

(** [s.endswith(suffix)] *)
Definition endswith (suffix s : str) : bool :=
  bool_decide (drop (length s - length suffix) s = suffix)
  && (length suffix <=? length s).

(** [s.split(sep)] for a one-character separator: never empty, the
    empty string splits into one empty field. *)
Fixpoint split (sep : ascii) (s : str) : list str :=
  match s with
  | [] => [[]]
  | c :: s' =>
      if bool_decide (c = sep) then [] :: split sep s'
      else match split sep s' with
           | f :: fs => (c :: f) :: fs
           | [] => [[c]]
           end
  end.

(** Iterating a text file: the lines, each with its newline kept, the
    last one possibly without. *)
Fixpoint file_lines (text : str) : list str :=
  match text with
  | [] => []
  | c :: text' =>
      if bool_decide (c = "010"%char) then [c] :: file_lines text'
      else match file_lines text' with
           | l :: ls => (c :: l) :: ls
           | [] => [[c]]
           end
  end.

(** [max(xs)]: raises [ValueError] on an empty iterable. *)
Definition max (xs : list nat) : result nat :=
  match xs with
  | [] => Raise ValueError
  | x :: xs' => Ok (fold_left Nat.max xs' x)
  end.

(** [range(a, b)] *)
Definition range (a b : nat) : list nat := seq a (b - a).

(** [str(n)] / [f'{n}'] for a non-negative int *)
Definition str_of_nat (n : nat) : str := lit (pretty n).

(** Slice indices as [PySlice_AdjustIndices] computes them with step 1:
    a negative index counts from the end, then both are clipped to
    [0, len]. *)
Definition adjust_index (len i : Z) : Z :=
  if (i <? 0)%Z then Z.max 0 (i + len) else Z.min i len.

(** [l[start:stop]] *)
Definition slice {A} (l : list A) (start stop : Z) : list A :=
  let len := Z.of_nat (length l) in
  let lo := adjust_index len start in
  let hi := adjust_index len stop in
  take (Z.to_nat (hi - lo)) (drop (Z.to_nat lo) l).

(** Truthiness of an optional string argument ([None] and [''] are
    false). *)
Definition truthy (o : option str) : bool :=
  match o with
  | Some (_ :: _) => true
  | _ => false
  end.


(** [s.rfind(c)]: the index of the last occurrence, [-1] without one. *)
Fixpoint rfind_from (c : ascii) (s : str) (i last : Z) : Z :=
  match s with
  | x :: s' => rfind_from c s' (i + 1) (if bool_decide (x = c) then i else last)
  | [] => last
  end.

Definition rfind (c : ascii) (s : str) : Z := rfind_from c s 0 (-1).

(** [os.path.basename], [os.path.splitext] and [os.path.join] (of two
    components) as [posixpath] defines them. *)
Definition basename (p : str) : str :=
  drop (Z.to_nat (rfind "/"%char p + 1)) p.

Definition splitext (p : str) : str * str :=
  let sepIndex := rfind "/"%char p in
  let dotIndex := rfind "."%char p in
  if (sepIndex <? dotIndex)%Z
     && existsb (fun c => negb (bool_decide (c = "."%char)))
                (slice p (sepIndex + 1) dotIndex)
  then (take (Z.to_nat dotIndex) p, drop (Z.to_nat dotIndex) p)
  else (p, []).

Definition path_join (a b : str) : str :=
  if startswith "/"%char b then b
  else if bool_decide (a = []) || endswith ["/"%char] a then a ++ b
  else a ++ "/"%char :: b.

End Py.

Import Py.

(** ** flu_parse_header.py *)

Module FluParseHeader.

(** The regular expression [\|([^|]+)\|] tried at the start of [s]:
    a bar, the longest run of characters other than a bar, which must
    not be empty, and a bar. The result is group 1. *)
Fixpoint bar_free_run (s : str) : str * str :=
  match s with
  | c :: s' =>
      if bool_decide (c = "|"%char) then ([], s)
      else let '(run, rest) := bar_free_run s' in (c :: run, rest)
  | [] => ([], [])
  end.

Definition re_match (s : str) : option str :=
  match s with
  | "|"%char :: s' =>
      match bar_free_run s' with
      | ((_ :: _) as tok, "|"%char :: _) => Some tok
      | _ => None
      end
  | _ => None
  end.

(** [re.search(r'\|([^|]+)\|', s)]: the match at the leftmost position
    that has one. *)
Fixpoint re_search (s : str) : option str :=
  match re_match s with
  | Some tok => Some tok
  | None =>
      match s with
      | _ :: s' => re_search s'
      | [] => None
      end
  end.

(** One iteration of the loop of [extract_and_split_headers]: both
    lists are threaded as the state. *)
Definition extract_line (st : list str * list (list str)) (line : str)
  : list str * list (list str) :=
  let '(original_headers, split_headers) := st in
  if startswith ">"%char line then
    let original_header := strip (drop 1 line) in
    let original_headers := original_headers ++ [original_header] in
    match re_search original_header with
    | Some sequence_id =>
        (original_headers, split_headers ++ [split "/"%char sequence_id])
    | None => (original_headers, split_headers)
    end
  else st.

Definition extract_and_split_headers (text : str)
  : list str * list (list str) :=
  fold_left extract_line (file_lines text) ([], []).

(** The rows handed to the csv writer, the column names first. *)
Definition write_to_tsv (original_headers : list str)
    (split_headers : list (list str)) (column_names : list str)
  : result (list (list str)) :=
  max_columns ← Py.max (length <$> split_headers);
  let column_names :=
    if length column_names <? max_columns
    then column_names
         ++ ((fun i => lit "Part" ++ str_of_nat i)
               <$> range (length column_names + 1) (max_columns + 1))
    else column_names in
  let column_names := lit "OriginalHeader" :: take max_columns column_names in
  Ok (column_names ::
      ((fun '(original_header, split_header) =>
          [original_header] ++ split_header
          ++ replicate (max_columns - length split_header) [])
       <$> zip original_headers split_headers)).

(** What a run leaves behind: the output file (its rows) and the lines
    printed. *)
Record outcome := { tsv : list (list str); stdout : list str }.

(** [main], for an input file that can be read; no exception is caught. *)
Definition main (text : str) (output : str) (column_names : list str)
  : result outcome :=
  let '(original_headers, split_headers) := extract_and_split_headers text in
  rows ← write_to_tsv original_headers split_headers column_names;
  Ok {| tsv := rows;
        stdout := [lit "Data has been written to " ++ output] |}.

(** The header lines of a file, as [original_header] values. *)
Definition headers (text : str) : list str :=
  (fun line => strip (drop 1 line))
  <$> filter (fun line => startswith ">"%char line = true) (file_lines text).


End FluParseHeader.


(** ** Parsed FASTA records (Biopython's [SeqRecord], as [SeqIO.parse]
  yields them for the "fasta" format) *)

Module Bio.

Record SeqRecord := {
  id : str;            (* first word of the header *)
  name : str;
  description : str;   (* the whole header *)
  seq : str            (* the residues *)
}.

(** [record[start:stop]]: the residues are sliced, the identifiers kept. *)
Definition getslice (record : SeqRecord) (start stop : Z) : SeqRecord :=
  {| id := id record;
     name := name record;
     description := description record;
     seq := slice (seq record) start stop |}.

End Bio.

(** ** seqid_validate.py *)

Module SeqidValidate.
Import Bio.

(** A table as [pd.read_csv] loads it: the column names and the rows,
    every cell a string. *)
Record DataFrame := { columns : list str; rows : list (list str) }.

(** [df[name]]: the values of a column, [KeyError] without it. *)
Definition column (df : DataFrame) (name : str) : result (list str) :=
  match list_find (fun c => c = name) (columns df) with
  | Some (i, _) => Ok ((fun row => nth i row []) <$> rows df)
  | None => Raise (KeyError name)
  end.

(** [df[mask]]: the rows at which the boolean mask is true. *)
Definition select (df : DataFrame) (mask : list bool) : DataFrame :=
  {| columns := columns df;
     rows := fst <$> filter (fun rm => snd rm = true) (zip (rows df) mask) |}.

(** [series.isin(ids)] *)
Definition isin (values : list str) (ids : gset (list ascii)) : list bool :=
  (fun v => bool_decide (v ∈ ids)) <$> values.

Definition parse_fasta (records : list SeqRecord) : gset (list ascii) :=
  fold_left
    (fun seq_ids record =>
       let seqid_segment := id record in
       let seqid := nth 0 (split "_"%char seqid_segment) [] in
       seq_ids ∪ {[ seqid ]})
    records ∅.

Definition parse_metadata (metadata : DataFrame)
  : result (gset (list ascii) * DataFrame) :=
  seqids ← column metadata (lit "seqid");
  Ok (list_to_set seqids, metadata).

(** What is written to a file: a table, or the one-column table of a
    set of identifiers (in the order the set happens to iterate). *)
Inductive content :=
| Table (df : DataFrame)
| IdColumn (ids : gset (list ascii)).

Record effects := { stdout : list str; files : list (str * content) }.

Definition write_files (directory : str)
    (fasta_ids metadata_ids : gset (list ascii)) : list (str * content) :=
  let intersect_ids := fasta_ids ∩ metadata_ids in
  let fasta_only_ids := fasta_ids ∖ metadata_ids in
  let metadata_only_ids := metadata_ids ∖ fasta_ids in
  [ (path_join directory (lit "fasta_ids.tsv"), IdColumn fasta_ids);
    (path_join directory (lit "metadata_ids.tsv"), IdColumn metadata_ids);
    (path_join directory (lit "intersect.tsv"), IdColumn intersect_ids);
    (path_join directory (lit "fasta_only.tsv"), IdColumn fasta_only_ids);
    (path_join directory (lit "metadata_only.tsv"), IdColumn metadata_only_ids) ].

(** The five numbered lines of the report. *)
Definition line1 (n : nat) : str :=
  lit "1. Number of unique IDs in the FASTA file: " ++ str_of_nat n.
Definition line2 (n : nat) : str :=
  lit "2. Number of unique IDs in the metadata file: " ++ str_of_nat n.
Definition line3 (n : nat) : str :=
  lit "3. Number of unique IDs present in both files: " ++ str_of_nat n.
Definition line4 (n : nat) : str :=
  lit "4. Number of unique IDs in the FASTA file but not in the metadata file: "
  ++ str_of_nat n.
Definition line5 (n : nat) : str :=
  lit "5. Number of unique IDs in the metadata file but not in the FASTA file: "
  ++ str_of_nat n.

Definition files_created : list str :=
  [ "010"%char :: lit "Files created:";
    lit "  fasta_ids.tsv: Contains all seqids present in the FASTA file.";
    lit "  metadata_ids.tsv: Contains all seqids present in the metadata file.";
    lit "  intersect.tsv: Contains seqids present in both the FASTA and metadata files.";
    lit "  fasta_only.tsv: Contains seqids present only in the FASTA file.";
    lit "  metadata_only.tsv: Contains seqids present only in the metadata file." ].

(** [compare_ids]: [fasta] are the records of the FASTA file, [metadata]
    the loaded table. The printed lines and the files written are
    accumulated in program order. *)
Definition compare_ids (fasta : list SeqRecord) (metadata : DataFrame)
    (output_metadata_file output_dir : option str) : result effects :=
  let fasta_ids := parse_fasta fasta in
  '(metadata_ids, metadata_df) ← parse_metadata metadata;
  let num_unique_fasta_ids := size fasta_ids in
  let num_unique_metadata_ids := size metadata_ids in
  let common_ids := fasta_ids ∩ metadata_ids in
  let num_common_ids := size common_ids in
  let fasta_only_ids := fasta_ids ∖ metadata_ids in
  let num_fasta_only_ids := size fasta_only_ids in
  let metadata_only_ids := metadata_ids ∖ fasta_ids in
  let num_metadata_only_ids := size metadata_only_ids in
  let out := [ line1 num_unique_fasta_ids; line2 num_unique_metadata_ids;
               line3 num_common_ids; line4 num_fasta_only_ids;
               line5 num_metadata_only_ids ] in
  '(out, written) ←
    (if truthy output_metadata_file then
       let path := default [] output_metadata_file in
       seqids ← column metadata_df (lit "seqid");
       let filtered_metadata_df := select metadata_df (isin seqids fasta_ids) in
       Ok (out ++ [ "010"%char :: lit "Filtered metadata written to: " ++ path ],
           [ (path, Table filtered_metadata_df) ])
     else Ok (out, []));
  if truthy output_dir then
    let directory := default [] output_dir in
    Ok {| stdout := out ++ [ "010"%char :: lit "Files written to: " ++ directory ]
                    ++ files_created;
          files := written ++ write_files directory fasta_ids metadata_ids |}
  else Ok {| stdout := out; files := written |}.

(** The table written to [output_metadata_file] by a run, if any. *)
Definition filtered_metadata (e : effects) : option DataFrame :=
  match files e with
  | (_, Table df) :: _ => Some df
  | _ => None
  end.

End SeqidValidate.

(** ** trim_fasta.py *)

Module TrimFasta.
Import Bio.


Record effects := { written : option (list SeqRecord); stdout : list str }.


End TrimFasta.

(** ** rmdup.py *)

Module Rmdup.

(** The file system and the external tool, as this run observes them:
    [walk p] is the sequence of [(root, dirs, files)] that [os.walk p]
    yields; [can_open f] tells whether [open(f, "w")] succeeds; [run cmd]
    is the exit status of the child process, [None] when it cannot be
    started. *)
Record OS := {
  isfile : str -> bool;
  isdir : str -> bool;
  walk : str -> list (str * list str * list str);
  can_open : str -> bool;
  run : list str -> option Z
}.

Inductive event :=
| Opened (path : str)
| Ran (cmd : list str) (returncode : Z)
| Printed (line : str).

(** A computation: what it did, and how it ended. *)
Record proc (A : Type) := Proc { trace : list event; res : result A }.
Arguments Proc {A} trace res.
Arguments trace {A} p.
Arguments res {A} p.

#[global] Instance proc_ret : MRet proc := fun A a => Proc [] (Ok a).

#[global] Instance proc_bind : MBind proc := fun A B k p =>
  match res p with
  | Ok a => Proc (trace p ++ trace (k a)) (res (k a))
  | Raise e => Proc (trace p) (Raise e)
  end.

Definition emit (ev : event) : proc unit := Proc [ev] (Ok tt).

Definition raise {A} (e : exn) : proc A := Proc [] (Raise e).

(** [for x in xs: body x] *)
Fixpoint for_each {A} (xs : list A) (body : A -> proc unit) : proc unit :=
  match xs with
  | [] => mret tt
  | x :: xs' => body x ≫= fun _ => for_each xs' body
  end.

Definition seqkit_cmd (input_file : str) : list str :=
  [ lit "seqkit"; lit "rmdup"; lit "-n"; lit "--id-regexp";
    lit "\|([^|]+)\|"; input_file ].

(** [subprocess.run(cmd, stdout=out_file, check=True)] inside
    [with open(output_file, "w")]. *)
Definition run_seqkit_rmdup (os : OS) (input_file output_file : str)
  : proc unit :=
  if can_open os output_file then
    emit (Opened output_file) ≫= fun _ =>
    match run os (seqkit_cmd input_file) with
    | Some returncode =>
        emit (Ran (seqkit_cmd input_file) returncode) ≫= fun _ =>
        if (returncode =? 0)%Z then mret tt
        else raise (CalledProcessError returncode (seqkit_cmd input_file))
    | None => raise (OSError (lit "seqkit"))
    end
  else raise (OSError output_file).

Definition rmdup_name (base_filename : str) : str :=
  base_filename ++ lit ".rmdup.fasta".

Definition remove_duplicates (os : OS) (input_path output_dir : str)
  : proc unit :=
  if isfile os input_path then
    let base_filename := fst (splitext (basename input_path)) in
    let output_file := path_join output_dir (rmdup_name base_filename) in
    run_seqkit_rmdup os input_path output_file
  else if isdir os input_path then
    for_each (walk os input_path) (fun '(root, dirs, files) =>
      for_each files (fun file =>
        if endswith (lit ".fasta") file then
          let input_file := path_join root file in
          let base_filename := fst (splitext file) in
          let output_file := path_join output_dir (rmdup_name base_filename) in
          run_seqkit_rmdup os input_file output_file
        else mret tt))
  else
    emit (Printed (lit "Error: " ++ input_path
                   ++ lit " is not a valid file or directory.")).

(** A processing failure: the run ends in an exception. An invalid
    path: the run ends normally, having printed the error line. *)
Definition failed (p : proc unit) : Prop := raised (res p).

Definition processed (p : proc unit) (input_file : str) (returncode : Z) : Prop :=
  Ran (seqkit_cmd input_file) returncode ∈ trace p.

End Rmdup.

(** ** Properties the specification speaks of *)

Module Props.
Import Bio FluParseHeader SeqidValidate TrimFasta Rmdup.

Definition LF : ascii := "010"%char.

Abbreviation bar := ("|"%char) (only parsing).

(** A header contains a substring bounded by two occurrences of the
    [|] delimiter. *)
Definition delimiter_pair (h : str) : Prop :=
  exists pre tok post, h = pre ++ bar :: tok ++ bar :: post.

(** A header contains a delimiter-bounded token that the extraction
    accepts: not empty, and without a delimiter inside. *)
Definition has_token (h : str) : Prop :=
  exists pre tok post,
    h = pre ++ bar :: tok ++ bar :: post
    /\ tok <> [] /\ (bar ∉ tok).

(** [x] is [s] truncated at the first occurrence of [sep] (all of [s]
    when [sep] does not occur). *)
Definition truncated_at (sep : ascii) (s x : str) : Prop :=
  (sep ∉ x) /\ (s = x \/ exists rest, s = x ++ sep :: rest).


(** [out] is the zero-based, stop-exclusive window [start, stop) of
    [s]: position [k] of [out] holds position [start + k] of [s] as long
    as that is below [stop] and within [s], and nothing beyond. *)
Definition window {A} (s : list A) (start stop : nat) (out : list A) : Prop :=
  forall k, out !! k = if decide (start + k < stop) then s !! (start + k) else None.


(** *** Header Splitter *)



Definition part_name (i : nat) : str := lit "Part" ++ str_of_nat i.

Definition padded_row (M : nat) (p : str * list str) : list str :=
  [p.1] ++ p.2 ++ replicate (M - length p.2) [].

Definition count_bars (h : str) : nat := count_occ ascii_dec h bar.

(** *** Identifier Cross-Referencer *)

(** [s.split(sep)[0]] *)
Definition first_field (sep : ascii) (s : str) : str := nth 0 (split sep s) [].



(** An example: records [A_1, B_1, C_2, A_2] against a table whose
    [seqid] column holds [B, D, C, B]. *)
Definition example_record (i : string) : SeqRecord :=
  {| id := lit i; name := lit i; description := lit i; seq := lit "ACGTACGTAC" |}.

Definition example_fasta : list SeqRecord :=
  [ example_record "A_1"; example_record "B_1"; example_record "C_2";
    example_record "A_2" ].

Definition example_metadata : DataFrame :=
  {| columns := [ lit "host"; lit "seqid" ];
     rows := [ [lit "human"; lit "B"]; [lit "swine"; lit "D"];
               [lit "avian"; lit "C"]; [lit "human"; lit "B"] ] |}.

(** *** Duplicate Remover *)

(** A non-zero exit status in the trace is the exception the run ends
    in. *)
Definition propagates (p : proc unit) : Prop :=
  forall cmd returncode,
    Ran cmd returncode ∈ trace p -> returncode <> 0%Z ->
    res p = Raise (CalledProcessError returncode cmd).

(** Nothing is printed. *)
Definition silent (p : proc unit) : Prop :=
  forall line, Printed line ∉ trace p.

(** An example: a directory with three FASTA files and a text file;
    the tool fails on [c.fasta] with exit status 1. *)
Definition example_os : OS :=
  {| isfile := fun p => false;
     isdir := fun p => bool_decide (p = lit "in");
     walk := fun p => [ (lit "in", [],
                         [ lit "a.fasta"; lit "b.txt"; lit "c.fasta"; lit "d.fasta" ]) ];
     can_open := fun p => true;
     run := fun cmd => if bool_decide (cmd = seqkit_cmd (lit "in/c.fasta"))
                       then Some 1%Z else Some 0%Z |}.

(** *** Further properties *)


(** A call of the tool that exits with a status other than zero is the
    last thing a run does, and the run ends in its exception. *)
Definition halts (p : proc unit) : Prop :=
  forall pre cmd returncode post,
    trace p = pre ++ Ran cmd returncode :: post ->
    returncode <> 0%Z ->
    post = [] /\ res p = Raise (CalledProcessError returncode cmd).

(** Every event of a run satisfies [P]. *)
Definition all_events (P : event -> Prop) (p : proc unit) : Prop :=
  forall ev, ev ∈ trace p -> P ev.

(** The events of processing [file], found under [root], into [output_dir]. *)
Definition file_events (output_dir root file : str) (returncode : Z)
  : list event :=
  [ Opened (path_join output_dir (rmdup_name (splitext file).1));
    Ran (seqkit_cmd (path_join root file)) returncode ].

(** An example where the tool succeeds on every file. *)
Definition example_os_ok : OS :=
  {| isfile := fun p => false;
     isdir := fun p => bool_decide (p = lit "in");
     walk := fun p => [ (lit "in", [lit "sub"], [ lit "a.fasta"; lit "b.txt" ]);
                              (lit "in/sub", [], [ lit "c.fasta" ]) ];
     can_open := fun p => true;
     run := fun cmd => Some 0%Z |}.


End Props.

(** ** Header Splitter: proofs *)

Module HeaderSplitter.
Import FluParseHeader Props.

(** *** The regular expression *)

Lemma bar_free_run_spec s run rest :
  bar_free_run s = (run, rest) ->
  s = run ++ rest /\ (bar ∉ run)
  /\ (rest = [] \/ exists r, rest = bar :: r).
Proof.
  revert run rest. induction s as [|c s IH]; intros run rest; simpl.
  - intros [= <- <-]. split_and!; [done | apply not_elem_of_nil | by left].
  - case_bool_decide as Hc.
    + intros [= <- <-]. subst c.
      split_and!; [done | apply not_elem_of_nil | right; eauto].
    + destruct (bar_free_run s) as [run' rest'] eqn:E.
      intros [= <- <-]. destruct (IH _ _ eq_refl) as (-> & Hn & Hr).
      split_and!; [done | | done].
      rewrite elem_of_cons. intros [?|?]; [congruence | done].
Qed.

Lemma bar_free_run_app tok post :
  bar ∉ tok -> bar_free_run (tok ++ bar :: post) = (tok, bar :: post).
Proof.
  induction tok as [|c tok IH]; simpl; intros Hn.
  - done.
  - rewrite not_elem_of_cons in Hn. destruct Hn as [Hc Hn].
    rewrite bool_decide_eq_false_2 by congruence. by rewrite IH.
Qed.

Lemma re_match_Some s tok :
  re_match s = Some tok <->
  exists post, s = bar :: tok ++ bar :: post
               /\ tok <> [] /\ (bar ∉ tok).
Proof.
  split.
  - destruct s as [|c s]; [done|]. unfold re_match.
    destruct (decide (c = bar)) as [->|Hc].
    + destruct (bar_free_run s) as [run rest] eqn:E.
      apply bar_free_run_spec in E as (-> & Hn & Hr).
      destruct run as [|r run]; [done|].
      destruct rest as [|b rest]; [done|].
      destruct Hr as [?|[r' [= -> ->]]]; [done|].
      intros [= <-]. eauto.
    + intros H. exfalso.
      by destruct c as [[] [] [] [] [] [] [] []].
  - intros (post & -> & Hne & Hn). unfold re_match.
    rewrite bar_free_run_app by done. by destruct tok.
Qed.

Lemma re_search_cons c s :
  re_search (c :: s)
  = match re_match (c :: s) with Some tok => Some tok | None => re_search s end.
Proof. reflexivity. Qed.

(** [re.search] finds a match exactly in the headers with a token. *)
Lemma re_search_is_Some s : is_Some (re_search s) <-> has_token s.
Proof.
  split.
  - induction s as [|c s IH]; intros [tok H].
    + done.
    + rewrite re_search_cons in H.
      destruct (re_match (c :: s)) as [tok'|] eqn:E.
      * apply re_match_Some in E as (post & E & ? & ?).
        exists [], tok', post. by rewrite E.
      * destruct IH as (pre & t & post & -> & ? & ?); [by eexists|].
        by exists (c :: pre), t, post.
  - intros (pre & tok & post & -> & Hne & Hn).
    assert (re_match (bar :: tok ++ bar :: post) = Some tok) as E
      by (apply re_match_Some; eauto).
    induction pre as [|c pre IH].
    + rewrite app_nil_l, re_search_cons, E. by eexists.
    + rewrite <- app_comm_cons, re_search_cons.
      destruct (re_match (c :: _)); [by eexists | done].
Qed.

#[local] Instance has_token_dec h : Decision (has_token h).
Proof.
  refine (cast_if (decide (is_Some (re_search h))));
    abstract (by rewrite <- re_search_is_Some).
Defined.

(** *** The loop of [extract_and_split_headers] *)






(** *** [max] and the column names *)

Lemma fold_max_ge xs x n :
  n ∈ x :: xs -> n <= fold_left Nat.max xs x.
Proof.
  revert x n. induction xs as [|y xs IH]; intros x n H; simpl.
  - apply list_elem_of_singleton in H. lia.
  - assert (Nat.max x y <= fold_left Nat.max xs (Nat.max x y)) as Hm
      by (apply IH, elem_of_cons; by left).
    apply elem_of_cons in H as [->|H]; [lia|].
    apply elem_of_cons in H as [->|H]; [lia|].
    apply IH, elem_of_cons. by right.
Qed.

Lemma fold_max_in xs x : fold_left Nat.max xs x ∈ x :: xs.
Proof.
  revert x. induction xs as [|y xs IH]; intros x; simpl.
  - apply elem_of_cons. by left.
  - specialize (IH (Nat.max x y)). apply elem_of_cons in IH as [E|IH].
    + rewrite E. destruct (Nat.max_spec x y) as [[_ ->]|[_ ->]].
      * apply elem_of_cons; right; apply elem_of_cons; by left.
      * apply elem_of_cons; by left.
    + apply elem_of_cons; right; apply elem_of_cons; by right.
Qed.

(** [max] returns the greatest element, and raises only on no element. *)
Lemma max_spec xs M :
  Py.max xs = Ok M <-> M ∈ xs /\ forall n, n ∈ xs -> n <= M.
Proof.
  destruct xs as [|x xs]; simpl.
  - split; [done|]. by intros [?%elem_of_nil _].
  - split.
    + intros [= <-]. split; [apply fold_max_in | apply fold_max_ge].
    + intros [HM Hub]. f_equal. apply Nat.le_antisymm.
      * apply Hub, fold_max_in.
      * by apply fold_max_ge.
Qed.


(** *** The table that is written *)

Lemma write_to_tsv_Ok original_headers split_headers column_names M :
  Py.max (length <$> split_headers) = Ok M ->
  write_to_tsv original_headers split_headers column_names
  = Ok ((lit "OriginalHeader"
         :: take M (if length column_names <? M
                    then column_names
                         ++ (part_name <$> range (length column_names + 1) (M + 1))
                    else column_names))
        :: (padded_row M <$> zip original_headers split_headers)).
Proof.
  intros HM. unfold write_to_tsv. rewrite HM. cbn [mbind result_bind].
  do 2 f_equal. apply list_fmap_ext. by intros i [oh sh] _.
Qed.

Lemma column_names_lookup column_names M i :
  i < M ->
  take M (if length column_names <? M
          then column_names
               ++ (part_name <$> range (length column_names + 1) (M + 1))
          else column_names) !! i
  = if decide (i < length column_names) then column_names !! i
    else Some (part_name (i + 1)).
Proof.
  intros Hi. rewrite lookup_take_lt by done.
  destruct (Nat.ltb_spec (length column_names) M) as [Hlt|Hge].
  - case_decide as Hc.
    + by rewrite lookup_app_l.
    + rewrite lookup_app_r by lia. rewrite list_lookup_fmap. unfold range.
      rewrite lookup_seq_lt by lia. simpl. do 2 f_equal. lia.
  - rewrite decide_True by lia. done.
Qed.

Lemma column_names_length column_names M :
  length (take M (if length column_names <? M
                  then column_names
                       ++ (part_name <$> range (length column_names + 1) (M + 1))
                  else column_names)) = M.
Proof.
  rewrite length_take.
  destruct (Nat.ltb_spec (length column_names) M) as [Hlt|Hge]; [|lia].
  rewrite length_app, length_fmap. unfold range. rewrite length_seq. lia.
Qed.

(** *** Counting delimiters *)

Lemma count_bars_pos h :
  0 < count_bars h -> exists pre post, h = pre ++ bar :: post.
Proof.
  intros H. apply count_occ_In, list_elem_of_In in H.
  by apply list_elem_of_split.
Qed.

Lemma delimiter_pair_count h : delimiter_pair h <-> 2 <= count_bars h.
Proof.
  unfold count_bars. split.
  - intros (pre & tok & post & ->).
    rewrite count_occ_app, count_occ_cons_eq by done.
    rewrite count_occ_app, count_occ_cons_eq by done. lia.
  - intros H. destruct (count_bars_pos h) as (pre & rest & ->);
      [unfold count_bars; lia|].
    rewrite count_occ_app, count_occ_cons_eq in H by done.
    destruct (decide (0 < count_bars rest)) as [Hr|Hr].
    + destruct (count_bars_pos _ Hr) as (tok & post & ->).
      by exists pre, tok, post.
    + destruct (count_bars_pos pre) as (pre' & tok & ->);
        [unfold count_bars in *; lia|].
      exists pre', tok, rest. by rewrite <- app_assoc.
Qed.

#[local] Instance delimiter_pair_dec h : Decision (delimiter_pair h).
Proof.
  refine (cast_if (decide (2 <= count_bars h)));
    abstract (by rewrite delimiter_pair_count).
Defined.

(** *** The claims *)

(** C1 (the code departs from the claim). A row is built from the k-th
    header line and the k-th token, so a header without a token that
    comes first shifts the pairing: here the only data row carries the
    header [seq1 no delimiters], which has no token, next to the fields
    of the second record. *)
Theorem C1_row_pairs_header_with_later_record :
  let text := lit ">seq1 no delimiters" ++ LF
              :: lit ">s2|A/human/Victoria/1234/2024|x" ++ LF
              :: lit "ACGT" ++ [LF] in
  headers text = [lit "seq1 no delimiters"; lit "s2|A/human/Victoria/1234/2024|x"]
  /\ re_search (lit "seq1 no delimiters") = None
  /\ re_search (lit "s2|A/human/Victoria/1234/2024|x")
     = Some (lit "A/human/Victoria/1234/2024")
  /\ main text (lit "out.tsv") [lit "Type"; lit "Host"]
     = Ok {| tsv := [ [lit "OriginalHeader"; lit "Type"; lit "Host";
                       lit "Part3"; lit "Part4"; lit "Part5"];
                      [lit "seq1 no delimiters"; lit "A"; lit "human";
                       lit "Victoria"; lit "1234"; lit "2024"] ];
             stdout := [lit "Data has been written to out.tsv"] |}.
Proof. by vm_compute. Qed.








(** C4. When the split headers have maximum length [M], the first row
    written is [OriginalHeader] followed by [M] names: the supplied
    ones first, then [Part{N}] at each position [N] past the supplied
    list, up to [M]. With two supplied names and [M = 5] the row is
    [OriginalHeader, name1, name2, Part3, Part4, Part5]. *)
Theorem C4_column_naming original_headers split_headers column_names M :
  M ∈ length <$> split_headers ->
  (forall n, n ∈ length <$> split_headers -> n <= M) ->
  exists names rows,
    write_to_tsv original_headers split_headers column_names
    = Ok ((lit "OriginalHeader" :: names) :: rows)
    /\ length names = M
    /\ (forall i, i < M ->
          names !! i = if decide (i < length column_names)
                       then column_names !! i
                       else Some (lit "Part" ++ str_of_nat (i + 1)))
    /\ (forall name1 name2,
          M = 5 -> column_names = [name1; name2] ->
          names = [name1; name2; lit "Part3"; lit "Part4"; lit "Part5"]).
Proof.
  intros HM Hub.
  assert (Py.max (length <$> split_headers) = Ok M) as Hmax
    by by apply max_spec.
  eexists _, _. split; [by apply write_to_tsv_Ok|].
  split; [apply column_names_length|].
  split; [apply column_names_lookup|].
  by intros name1 name2 -> ->.
Qed.

Lemma C4_column_naming_witness :
  let split_headers := [ [lit "A"; lit "human"; lit "Victoria"; lit "1234"; lit "2024"];
                         [lit "B"; lit "swine"] ] in
  let original_headers := [ lit "s1|A/human/Victoria/1234/2024|x"; lit "s2|B/swine|y" ] in
  let column_names := [ lit "Type"; lit "Host" ] in
  exists names rows,
    write_to_tsv original_headers split_headers column_names
    = Ok ((lit "OriginalHeader" :: names) :: rows)
    /\ length names = 5
    /\ (forall i, i < 5 ->
          names !! i = if decide (i < length column_names)
                       then column_names !! i
                       else Some (lit "Part" ++ str_of_nat (i + 1)))
    /\ (forall name1 name2,
          5 = 5 -> column_names = [name1; name2] ->
          names = [name1; name2; lit "Part3"; lit "Part4"; lit "Part5"]).
Proof.
  apply (C4_column_naming
           [ lit "s1|A/human/Victoria/1234/2024|x"; lit "s2|B/swine|y" ]
           [ [lit "A"; lit "human"; lit "Victoria"; lit "1234"; lit "2024"];
             [lit "B"; lit "swine"] ]
           [ lit "Type"; lit "Host" ] 5).
  - vm_compute. apply elem_of_cons; by left.
  - intros n Hn. vm_compute in Hn.
    apply elem_of_cons in Hn as [->|Hn]; [lia|].
    apply list_elem_of_singleton in Hn as ->. lia.
Defined.

End HeaderSplitter.

(** ** Identifier Cross-Referencer: proofs *)

Module CrossReferencer.
Import Bio SeqidValidate Props.

(** *** Truncating an identifier *)

Lemma split_cons_ne sep c s :
  c <> sep -> first_field sep (c :: s) = c :: first_field sep s.
Proof.
  intros Hc. unfold first_field. simpl. rewrite bool_decide_eq_false_2 by done.
  by destruct (split sep s).
Qed.

Lemma first_field_truncated sep s : truncated_at sep s (first_field sep s).
Proof.
  induction s as [|c s IH].
  - split; [apply not_elem_of_nil | by left].
  - destruct (decide (c = sep)) as [->|Hc].
    + unfold first_field. simpl. rewrite bool_decide_eq_true_2 by done. simpl.
      split; [apply not_elem_of_nil | right; by exists s].
    + rewrite split_cons_ne by done. destruct IH as [Hn [E|[rest E]]].
      * split; [|left; by rewrite <- E].
        apply not_elem_of_cons. by split; [congruence|].
      * split; [|right; exists rest; by rewrite E at 1].
        apply not_elem_of_cons. by split; [congruence|].
Qed.

Lemma truncated_at_unique sep s x y :
  truncated_at sep s x -> truncated_at sep s y -> x = y.
Proof.
  revert s y. induction x as [|c x IH]; intros s y [Hx Ex] [Hy Ey].
  - destruct y as [|d y]; [done|]. exfalso.
    apply not_elem_of_cons in Hy as [Hd Hy].
    destruct Ex as [->|[rest ->]]; destruct Ey as [[=]|[r [=]]]; congruence.
  - apply not_elem_of_cons in Hx as [Hc Hx].
    destruct y as [|d y].
    + exfalso. destruct Ey as [->|[rest ->]]; destruct Ex as [[=]|[r [=]]]; congruence.
    + apply not_elem_of_cons in Hy as [Hd Hy].
      assert (c = d /\ exists s', s = c :: s' /\ truncated_at sep s' x
                                  /\ truncated_at sep s' y) as (-> & s' & -> & Tx & Ty).
      { destruct Ex as [->|[rest ->]]; destruct Ey as [[= -> E]|[r [= -> E]]];
          (split; [done|]); eexists; (split; [reflexivity|]);
          repeat split; eauto. }
      f_equal. by apply (IH s').
Qed.

(** *** The two identifier sets *)

Lemma parse_fasta_fold (records : list SeqRecord) (acc : gset (list ascii)) x :
  x ∈ fold_left
        (fun seq_ids record => seq_ids ∪ {[ first_field "_"%char (id record) ]})
        records acc
  <-> x ∈ acc \/ exists r, r ∈ records /\ x = first_field "_"%char (id r).
Proof.
  revert acc. induction records as [|r records IH]; intros acc; simpl.
  - split; [by left|]. intros [?|(r & Hr & _)]; [done|].
    by apply elem_of_nil in Hr.
  - rewrite IH, elem_of_union, elem_of_singleton. split.
    + intros [[? | ->] | (r' & ? & ->)].
      * by left.
      * right. exists r. split; [by left | done].
      * right. exists r'. split; [by right | done].
    + intros [?|(r' & Hr & ->)]; [by left; left|].
      apply elem_of_cons in Hr as [-> | Hr]; [by left; right|].
      right. by exists r'.
Qed.

Lemma parse_fasta_spec (records : list SeqRecord) x :
  x ∈ parse_fasta records
  <-> exists r, r ∈ records /\ truncated_at "_"%char (id r) x.
Proof.
  unfold parse_fasta. fold (first_field "_"%char).
  change (fold_left _ records ∅) with
    (fold_left (fun seq_ids record =>
                  seq_ids ∪ {[ first_field "_"%char (id record) ]}) records
               (∅ : gset (list ascii))).
  rewrite parse_fasta_fold. split.
  - intros [He|(r & ? & ->)]; [by apply elem_of_empty in He|]. exists r.
    split; [done|]. apply first_field_truncated.
  - intros (r & ? & T). right. exists r. split; [done|].
    eapply truncated_at_unique; [exact T|]. apply first_field_truncated.
Qed.



(** *** The report *)


(** *** Filtering the metadata table *)



(** *** The claims *)












(** The example, run: the rows with [seqid] B, C and B are kept, in
    that order. *)
Example filtered_metadata_example :
  exists e,
    compare_ids example_fasta example_metadata (Some (lit "kept.tsv")) None = Ok e
    /\ (rows <$> filtered_metadata e)
       = Some [ [lit "human"; lit "B"]; [lit "avian"; lit "C"];
                [lit "human"; lit "B"] ].
Proof. eexists. split; by vm_compute. Qed.

End CrossReferencer.

(** ** Sequence Trimmer: proofs *)

Module Trimmer.
Import Bio TrimFasta Props.

Lemma adjust_index_nonneg len i :
  (0 <= i)%Z -> adjust_index len i = Z.min i len.
Proof. intros H. unfold adjust_index. by rewrite (proj2 (Z.ltb_ge i 0)). Qed.

(** With coordinates that are not negative, a slice is the window
    between them. *)
Lemma slice_window {A} (l : list A) (start stop : Z) :
  (0 <= start)%Z -> (0 <= stop)%Z ->
  window l (Z.to_nat start) (Z.to_nat stop) (slice l start stop).
Proof.
  intros Hstart Hstop k. unfold slice.
  rewrite !adjust_index_nonneg by done.
  set (len := length l).
  destruct (decide (Z.to_nat start + k < Z.to_nat stop)) as [Hk|Hk].
  - destruct (decide (Z.to_nat start + k < len)) as [Hl|Hl].
    + rewrite lookup_take_lt by lia. rewrite lookup_drop. f_equal. lia.
    + rewrite (lookup_ge_None_2 l) by (fold len; lia).
      apply lookup_ge_None_2. rewrite length_take, length_drop. fold len. lia.
  - apply lookup_ge_None_2. rewrite length_take, length_drop. fold len. lia.
Qed.






End Trimmer.

(** ** Duplicate Remover: proofs *)

Module DuplicateRemover.
Import Rmdup Props.

Lemma bind_Ok {A B} (p : proc A) (k : A -> proc B) a :
  res p = Ok a ->
  trace (p ≫= k) = trace p ++ trace (k a) /\ res (p ≫= k) = res (k a).
Proof. intros E. unfold mbind, proc_bind. by rewrite E. Qed.

Lemma bind_Raise {A B} (p : proc A) (k : A -> proc B) e :
  res p = Raise e ->
  trace (p ≫= k) = trace p /\ res (p ≫= k) = Raise e.
Proof. intros E. unfold mbind, proc_bind. by rewrite E. Qed.

Lemma propagates_bind (p : proc unit) (k : unit -> proc unit) :
  propagates p -> (forall a, propagates (k a)) -> propagates (p ≫= k).
Proof.
  intros Hp Hk cmd rc Hin Hrc. destruct (res p) as [a|e] eqn:E.
  - destruct (bind_Ok p k a E) as [Ht Hr]. rewrite Ht in Hin. rewrite Hr.
    apply elem_of_app in Hin as [Hin|Hin].
    + specialize (Hp cmd rc Hin Hrc). congruence.
    + by apply Hk.
  - destruct (bind_Raise p k e E) as [Ht Hr]. rewrite Ht in Hin. rewrite Hr.
    rewrite <- E. by apply Hp.
Qed.

Lemma silent_bind (p : proc unit) (k : unit -> proc unit) :
  silent p -> (forall a, silent (k a)) -> silent (p ≫= k).
Proof.
  intros Hp Hk line Hin. destruct (res p) as [a|e] eqn:E.
  - destruct (bind_Ok p k a E) as [Ht _]. rewrite Ht in Hin.
    apply elem_of_app in Hin as [Hin|Hin]; [by apply (Hp line) | by apply (Hk a line)].
  - destruct (bind_Raise p k e E) as [Ht _]. rewrite Ht in Hin. by apply (Hp line).
Qed.

Lemma propagates_for_each {A} (xs : list A) (body : A -> proc unit) :
  (forall x, propagates (body x)) -> propagates (for_each xs body).
Proof.
  intros Hb. induction xs as [|x xs IH]; simpl.
  - intros cmd rc Hin. by apply elem_of_nil in Hin.
  - apply propagates_bind; [apply Hb | by intros _].
Qed.

Lemma silent_for_each {A} (xs : list A) (body : A -> proc unit) :
  (forall x, silent (body x)) -> silent (for_each xs body).
Proof.
  intros Hb. induction xs as [|x xs IH]; simpl.
  - intros line Hin. by apply elem_of_nil in Hin.
  - apply silent_bind; [apply Hb | by intros _].
Qed.

Lemma propagates_ret : propagates (mret tt).
Proof. intros cmd rc Hin. by apply elem_of_nil in Hin. Qed.

Lemma silent_ret : silent (mret tt).
Proof. intros line Hin. by apply elem_of_nil in Hin. Qed.

(** [check=True]: one call of the tool. *)
Lemma run_seqkit_rmdup_cases os input_file output_file :
  let p := run_seqkit_rmdup os input_file output_file in
  (p = Proc [] (Raise (OSError output_file)))
  \/ (p = Proc [Opened output_file] (Raise (OSError (lit "seqkit"))))
  \/ (run os (seqkit_cmd input_file) = Some 0%Z
      /\ p = Proc [Opened output_file; Ran (seqkit_cmd input_file) 0] (Ok tt))
  \/ (exists rc, rc <> 0%Z /\ run os (seqkit_cmd input_file) = Some rc
        /\ p = Proc [Opened output_file; Ran (seqkit_cmd input_file) rc]
                    (Raise (CalledProcessError rc (seqkit_cmd input_file)))).
Proof.
  unfold run_seqkit_rmdup. destruct (can_open os output_file); [|by left].
  destruct (run os (seqkit_cmd input_file)) as [rc|]; [|by right; left].
  destruct (Z.eqb_spec rc 0) as [->|Hrc].
  - right; right; left. done.
  - right; right; right. by exists rc.
Qed.

Lemma run_seqkit_rmdup_propagates os input_file output_file :
  propagates (run_seqkit_rmdup os input_file output_file).
Proof.
  intros cmd rc Hin Hrc.
  destruct (run_seqkit_rmdup_cases os input_file output_file)
    as [E|[E|[[_ E]|(rc' & ? & _ & E)]]]; rewrite E in Hin; rewrite E;
    cbn [trace res] in *.
  - by apply elem_of_nil in Hin.
  - apply list_elem_of_singleton in Hin. discriminate.
  - apply elem_of_cons in Hin as [[=]|Hin].
    apply list_elem_of_singleton in Hin. by simplify_eq.
  - apply elem_of_cons in Hin as [[=]|Hin].
    apply list_elem_of_singleton in Hin. by simplify_eq.
Qed.

Lemma run_seqkit_rmdup_silent os input_file output_file :
  silent (run_seqkit_rmdup os input_file output_file).
Proof.
  intros line Hin.
  destruct (run_seqkit_rmdup_cases os input_file output_file)
    as [E|[E|[[_ E]|(rc' & ? & _ & E)]]]; rewrite E in Hin; cbn [trace] in Hin;
    repeat (apply elem_of_cons in Hin as [[=]|Hin]);
    by apply elem_of_nil in Hin.
Qed.

Lemma remove_duplicates_propagates os input_path output_dir :
  propagates (remove_duplicates os input_path output_dir).
Proof.
  unfold remove_duplicates. destruct (isfile os input_path).
  { apply run_seqkit_rmdup_propagates. }
  destruct (isdir os input_path).
  - apply propagates_for_each. intros [[root dirs] files].
    apply propagates_for_each. intros file.
    destruct (endswith _ file);
      [apply run_seqkit_rmdup_propagates | apply propagates_ret].
  - intros cmd rc Hin. by apply list_elem_of_singleton in Hin.
Qed.

Lemma remove_duplicates_silent os input_path output_dir :
  isfile os input_path = true \/ isdir os input_path = true ->
  silent (remove_duplicates os input_path output_dir).
Proof.
  intros H. unfold remove_duplicates. destruct (isfile os input_path).
  { apply run_seqkit_rmdup_silent. }
  destruct (isdir os input_path); [|by destruct H].
  apply silent_for_each. intros [[root dirs] files].
  apply silent_for_each. intros file.
  destruct (endswith _ file); [apply run_seqkit_rmdup_silent | apply silent_ret].
Qed.

Example example_run :
  remove_duplicates example_os (lit "in") (lit "out")
  = Proc [ Opened (lit "out/a.rmdup.fasta"); Ran (seqkit_cmd (lit "in/a.fasta")) 0;
           Opened (lit "out/c.rmdup.fasta"); Ran (seqkit_cmd (lit "in/c.fasta")) 1 ]
         (Raise (CalledProcessError 1 (seqkit_cmd (lit "in/c.fasta")))).
Proof. by vm_compute. Qed.

(** C9. Whenever the tool has run on a file and exited with a status
    other than zero, the run ends in the [CalledProcessError] of that
    call (so it is the last thing the run did); a path that is neither
    a file nor a directory makes the run print its error line and end
    normally, without an exception, and a run that ends in an exception
    has printed no such line. *)
Theorem C9_failure_propagation (os : OS) (input_path output_dir : str) :
  let p := remove_duplicates os input_path output_dir in
  (forall input_file returncode,
      processed p input_file returncode -> returncode <> 0%Z ->
      res p = Raise (CalledProcessError returncode (seqkit_cmd input_file))
      /\ failed p)
  /\ (forall returncode,
        isfile os input_path = true ->
        can_open os (path_join output_dir
                       (rmdup_name (splitext (basename input_path)).1)) = true ->
        run os (seqkit_cmd input_path) = Some returncode ->
        returncode <> 0%Z ->
        processed p input_path returncode)
  /\ (isfile os input_path = false -> isdir os input_path = false ->
      p = Proc [ Printed (lit "Error: " ++ input_path
                          ++ lit " is not a valid file or directory.") ]
               (Ok tt)
      /\ ~ failed p)
  /\ (failed p -> forall line, Printed line ∉ trace p).
Proof.
  cbv zeta. split_and!.
  - intros input_file rc Hin Hrc.
    pose proof (remove_duplicates_propagates os input_path output_dir _ _ Hin Hrc)
      as E.
    split; [done|]. unfold failed. rewrite E. by eexists.
  - intros rc Hf Hopen Hrun Hrc. unfold processed, remove_duplicates.
    rewrite Hf. unfold run_seqkit_rmdup. rewrite Hopen, Hrun.
    apply elem_of_cons; right. apply elem_of_cons; by left.
  - intros Hf Hd. unfold remove_duplicates, failed. rewrite Hf, Hd.
    split; [done|]. by intros [e [=]].
  - intros [e He] line.
    destruct (isfile os input_path) eqn:Hf;
      [apply remove_duplicates_silent; left; done|].
    destruct (isdir os input_path) eqn:Hd;
      [apply remove_duplicates_silent; right; done|].
    unfold remove_duplicates in He. by rewrite Hf, Hd in He.
Qed.

Lemma C9_failure_propagation_witness :
  let p := remove_duplicates example_os (lit "in") (lit "out") in
  processed p (lit "in/c.fasta") 1
  /\ res p = Raise (CalledProcessError 1 (seqkit_cmd (lit "in/c.fasta")))
  /\ failed p.
Proof.
  assert (processed (remove_duplicates example_os (lit "in") (lit "out"))
            (lit "in/c.fasta") 1) as H.
  { unfold processed. vm_compute.
    do 3 (apply elem_of_cons; right). apply elem_of_cons; by left. }
  split; [exact H|].
  apply (proj1 (C9_failure_propagation example_os (lit "in") (lit "out"))
           (lit "in/c.fasta") 1%Z H).
  lia.
Defined.

End DuplicateRemover.

(** ** Header Splitter: further properties *)

Module HeaderSplitterMore.
Import FluParseHeader Props HeaderSplitter.
#[local] Existing Instance has_token_dec.

(** *** The token that is found *)

Lemma re_match_no_bar c s : c <> bar -> re_match (c :: s) = None.
Proof. intros Hc. by destruct c as [[] [] [] [] [] [] [] []]. Qed.

Lemma re_search_skip pre s : bar ∉ pre -> re_search (pre ++ s) = re_search s.
Proof.
  induction pre as [|c pre IH]; [done|]. intros [Hc Hn]%not_elem_of_cons.
  rewrite <- app_comm_cons, re_search_cons, re_match_no_bar by congruence. auto.
Qed.

(** X1. The token is the first accepted one: [re.search] returns [tok]
    exactly when the header splits as [pre|tok|post] with [tok] not
    empty and free of [|], and no such split starts further left. *)
Theorem X1_re_search_leftmost h tok :
  re_search h = Some tok <->
  exists pre post,
    h = pre ++ bar :: tok ++ bar :: post /\ tok <> [] /\ (bar ∉ tok)
    /\ forall pre' tok' post',
         h = pre' ++ bar :: tok' ++ bar :: post' -> tok' <> [] -> (bar ∉ tok') ->
         length pre <= length pre'.
Proof.
  revert tok. induction h as [|c h IH]; intros tok.
  - split; [done|]. intros (pre & post & E & _). by destruct pre.
  - rewrite re_search_cons. destruct (re_match (c :: h)) as [t|] eqn:Em.
    + apply re_match_Some in Em as (post & E & Hne & Hn). split.
      * intros [= <-]. exists [], post. split_and!; [done..|]. simpl. lia.
      * intros (pre & post' & E' & Hne' & Hn' & Hmin).
        specialize (Hmin [] t post E Hne Hn). destruct pre; [|simpl in Hmin; lia].
        simpl in E'. rewrite E in E'. injection E' as E'.
        f_equal. clear -E' Hn Hn'.
        revert tok E' Hn'. induction t as [|x t IHt]; intros [|y tok] E' Hn'.
        -- done.
        -- simpl in E'. injection E' as <- _. exfalso. apply Hn'. by left.
        -- simpl in E'. injection E' as -> _. exfalso. apply Hn. by left.
        -- simpl in E'. injection E' as -> E'. f_equal.
           apply not_elem_of_cons in Hn as [_ Hn].
           apply not_elem_of_cons in Hn' as [_ Hn']. by apply IHt.
    + rewrite IH. split.
      * intros (pre & post & -> & Hne & Hn & Hmin).
        exists (c :: pre), post. split_and!; [done..|].
        intros [|c' pre'] tok' post' E' Hne' Hn'.
        -- exfalso. simpl in E'. rewrite E' in Em.
           assert (re_match (bar :: tok' ++ bar :: post') = Some tok') as Em'
             by (apply re_match_Some; eauto).
           congruence.
        -- simpl in E'. injection E' as -> E'. simpl.
           specialize (Hmin pre' tok' post' E' Hne' Hn'). lia.
      * intros (pre & post & E & Hne & Hn & Hmin). destruct pre as [|c' pre].
        -- exfalso. simpl in E. rewrite E in Em.
           assert (re_match (bar :: tok ++ bar :: post) = Some tok) as Em'
             by (apply re_match_Some; eauto).
           congruence.
        -- simpl in E. injection E as -> ->. exists pre, post.
           split_and!; [done..|]. intros pre' tok' post' E' Hne' Hn'.
           specialize (Hmin (c' :: pre') tok' post'). simpl in Hmin.
           rewrite E' in Hmin. specialize (Hmin eq_refl Hne' Hn'). lia.
Qed.

(** X2. When the text between the first and the second [|] of a header
    is not empty, it is the token. *)
Theorem X2_token_between_first_pair pre tok post :
  (bar ∉ pre) -> tok <> [] -> (bar ∉ tok) ->
  re_search (pre ++ bar :: tok ++ bar :: post) = Some tok.
Proof.
  intros Hpre Hne Hn. rewrite re_search_skip by done.
  rewrite re_search_cons.
  assert (re_match (bar :: tok ++ bar :: post) = Some tok) as ->
    by (apply re_match_Some; eauto).
  done.
Qed.

Lemma X2_token_between_first_pair_witness :
  re_search (lit "A" ++ bar :: lit "human/Victoria/1234/2024" ++ bar :: lit "extra")
  = Some (lit "human/Victoria/1234/2024").
Proof.
  apply (X2_token_between_first_pair (lit "A") (lit "human/Victoria/1234/2024")
           (lit "extra")).
  - apply (bool_decide_unpack _). by vm_compute.
  - discriminate.
  - apply (bool_decide_unpack _). by vm_compute.
Defined.

(** *** The fields of a token *)










(** *** The shape of the table *)

Lemma padded_row_length M (p : str * list str) :
  length p.2 <= M -> length (padded_row M p) = S M.
Proof.
  intros H. unfold padded_row. rewrite !length_app, length_replicate. simpl. lia.
Qed.

(** X4. The table is rectangular: when [write_to_tsv] returns, every
    row, the column names included, has one cell more than the longest
    list of fields. *)
Theorem X4_rows_have_equal_length original_headers split_headers column_names rows :
  write_to_tsv original_headers split_headers column_names = Ok rows ->
  exists M,
    M ∈ length <$> split_headers
    /\ (forall fields, fields ∈ split_headers -> length fields <= M)
    /\ forall row, row ∈ rows -> length row = S M.
Proof.
  intros H. destruct (Py.max (length <$> split_headers)) as [M|e] eqn:HM.
  2:{ unfold write_to_tsv in H. by rewrite HM in H. }
  rewrite (write_to_tsv_Ok _ _ _ M HM) in H. injection H as <-.
  apply max_spec in HM as [Hin Hub]. exists M.
  assert (forall fields, fields ∈ split_headers -> length fields <= M) as Hle.
  { intros fields Hf. apply Hub. by apply list_elem_of_fmap_2. }
  split_and!; [done..|]. intros row [->|Hrow]%elem_of_cons.
  - simpl. by rewrite column_names_length.
  - apply list_elem_of_fmap in Hrow as ([oh sh] & -> & Hz).
    apply padded_row_length, Hle. simpl. by eapply elem_of_zip_r.
Qed.

Lemma X4_rows_have_equal_length_witness :
  exists M,
    M ∈ length <$> [ [lit "A"; lit "human"; lit "2024"]; [lit "B"] ]
    /\ (forall fields, fields ∈ [ [lit "A"; lit "human"; lit "2024"]; [lit "B"] ] ->
                       length fields <= M)
    /\ forall row,
         row ∈ [ [lit "OriginalHeader"; lit "Type"; lit "Part2"; lit "Part3"];
                 [lit "s1|A/human/2024|"; lit "A"; lit "human"; lit "2024"];
                 [lit "s2|B|"; lit "B"; []; []] ] ->
         length row = S M.
Proof.
  apply (X4_rows_have_equal_length
           [ lit "s1|A/human/2024|"; lit "s2|B|" ]
           [ [lit "A"; lit "human"; lit "2024"]; [lit "B"] ]
           [ lit "Type" ]).
  by vm_compute.
Defined.

(** *** Which header meets which fields *)









(** *** Lines that are not headers *)









(** *** What a header cell can hold *)








End HeaderSplitterMore.

(** ** Identifier Cross-Referencer: further properties *)

Module CrossReferencerMore.
Import Bio SeqidValidate Props CrossReferencer.



(** *** The identifier sets *)

Lemma parse_fasta_size_fold (records : list SeqRecord) (acc : gset (list ascii)) :
  size (fold_left
          (fun seq_ids record => seq_ids ∪ {[ first_field "_"%char (id record) ]})
          records acc)
  <= size acc + length records.
Proof.
  revert acc. induction records as [|r records IH]; intros acc; simpl; [lia|].
  etrans; [apply IH|]. rewrite size_union_alt.
  assert (size (({[ first_field "_"%char (id r) ]} : gset (list ascii)) ∖ acc) <= 1);
    [|lia].
  etrans; [apply subseteq_size, subseteq_difference_l; reflexivity|].
  by rewrite size_singleton.
Qed.

(** X10. The sequence identifiers: none contains [_]; there are at most
    as many as records (records that agree up to the first [_] count
    once); and the identifiers of two files read one after the other are
    the union of the identifiers of each. *)
Theorem X10_sequence_identifiers (records more : list SeqRecord) :
  (forall x, x ∈ parse_fasta records -> "_"%char ∉ x)
  /\ size (parse_fasta records) <= length records
  /\ parse_fasta (records ++ more) = parse_fasta records ∪ parse_fasta more.
Proof.
  split_and!.
  - intros x (r & _ & [Hn _])%parse_fasta_spec. done.
  - pose proof (parse_fasta_size_fold records ∅) as H.
    rewrite size_empty in H. exact H.
  - apply set_eq. intros x. rewrite elem_of_union, !parse_fasta_spec. split.
    + intros (r & [Hr|Hr]%elem_of_app & T); [left | right]; by exists r.
    + intros [(r & Hr & T)|(r & Hr & T)]; exists r; rewrite elem_of_app; auto.
Qed.

(** *** The files and the report *)







End CrossReferencerMore.

(** ** Sequence Trimmer: further properties *)

Module TrimmerMore.
Import Bio TrimFasta Props Trimmer.



Lemma window_unique {A} (l : list A) start stop x y :
  window l start stop x -> window l start stop y -> x = y.
Proof. intros Hx Hy. apply list_eq. intros k. by rewrite Hx, Hy. Qed.

(** X14. Two trims compose into one: with coordinates that are not
    negative, trimming to [a, b) and then to [c, d) is trimming once to
    [a + c, min b (a + d)). *)
Theorem X14_trims_compose (record : SeqRecord) (a b c d : Z) :
  (0 <= a)%Z -> (0 <= b)%Z -> (0 <= c)%Z -> (0 <= d)%Z ->
  getslice (getslice record a b) c d
  = getslice record (a + c) (Z.min b (a + d)).
Proof.
  intros Ha Hb Hc Hd. unfold getslice. cbn [id name description seq]. f_equal.
  apply (window_unique (seq record) (Z.to_nat (a + c))
           (Z.to_nat (Z.min b (a + d)))); [|apply slice_window; lia].
  intros k. rewrite (slice_window (slice (seq record) a b) c d Hc Hd k).
  destruct (decide (Z.to_nat c + k < Z.to_nat d)) as [H1|H1].
  - rewrite (slice_window (seq record) a b Ha Hb (Z.to_nat c + k)).
    destruct (decide (Z.to_nat a + (Z.to_nat c + k) < Z.to_nat b)) as [H2|H2].
    + rewrite decide_True by lia. f_equal. lia.
    + by rewrite decide_False by lia.
  - by rewrite decide_False by lia.
Qed.

Lemma X14_trims_compose_witness :
  let r := {| id := lit "s1"; name := lit "s1"; description := lit "s1";
              seq := lit "ACGTACGTAC" |} in
  getslice (getslice r 2 9) 1 4 = getslice r (2 + 1) (Z.min 9 (2 + 4)).
Proof.
  apply (X14_trims_compose
           {| id := lit "s1"; name := lit "s1"; description := lit "s1";
              seq := lit "ACGTACGTAC" |} 2 9 1 4); lia.
Defined.

(** X15. A negative start counts from the end: with [start = -k] for
    [0 < k <= length] and a stop at or past the end, the trimmed residues
    are the last [k] of the input. *)
Theorem X15_negative_start_keeps_the_tail (record : SeqRecord) (k : nat) (stop : Z) :
  0 < k <= length (seq record) ->
  (Z.of_nat (length (seq record)) <= stop)%Z ->
  seq (getslice record (- Z.of_nat k) stop)
  = drop (length (seq record) - k) (seq record)
  /\ length (seq (getslice record (- Z.of_nat k) stop)) = k.
Proof.
  intros Hk Hstop. unfold getslice. cbn [seq]. unfold slice, adjust_index.
  set (len := length (seq record)) in *.
  rewrite (proj2 (Z.ltb_lt (- Z.of_nat k) 0)) by lia.
  rewrite (proj2 (Z.ltb_ge stop 0)) by lia.
  rewrite Z.max_r, Z.min_r by lia.
  replace (Z.to_nat (- Z.of_nat k + Z.of_nat len)) with (len - k) by lia.
  replace (Z.to_nat (Z.of_nat len - (- Z.of_nat k + Z.of_nat len))) with k by lia.
  assert (length (drop (len - k) (seq record)) = k) as Hl
    by (rewrite length_drop; fold len; lia).
  rewrite take_ge by lia. done.
Qed.

Lemma X15_negative_start_keeps_the_tail_witness :
  let r := {| id := lit "s1"; name := lit "s1"; description := lit "s1";
              seq := lit "ACGTACGTAC" |} in
  seq (getslice r (- Z.of_nat 3) 10) = drop (length (seq r) - 3) (seq r)
  /\ length (seq (getslice r (- Z.of_nat 3) 10)) = 3.
Proof.
  apply (X15_negative_start_keeps_the_tail
           {| id := lit "s1"; name := lit "s1"; description := lit "s1";
              seq := lit "ACGTACGTAC" |} 3 10); simpl; lia.
Defined.

End TrimmerMore.

(** ** Duplicate Remover: further properties *)

Module DuplicateRemoverMore.
Import Rmdup Props DuplicateRemover.

(** *** Stopping at the first failure *)

Lemma halts_bind (p : proc unit) (k : unit -> proc unit) :
  halts p -> (forall a, halts (k a)) -> halts (p ≫= k).
Proof.
  intros Hp Hk pre cmd rc post Ht Hrc. destruct (res p) as [a|e] eqn:E.
  - destruct (bind_Ok p k a E) as [Et Er]. rewrite Et in Ht. rewrite Er.
    apply app_eq_app in Ht as [l [[E1 E2]|[E1 E2]]].
    + destruct l as [|x l].
      * simpl in E2. by apply (Hk a []).
      * simpl in E2. injection E2 as <- ->.
        destruct (Hp _ _ _ _ E1 Hrc) as [_ Er']. congruence.
    + by apply (Hk a l).
  - destruct (bind_Raise p k e E) as [Et Er]. rewrite Et in Ht. rewrite Er, <- E.
    by apply (Hp pre).
Qed.

Lemma halts_nil (r : result unit) : halts (Proc [] r).
Proof. intros [|??] ??? Ht; simplify_eq/=. Qed.

Lemma halts_for_each {A} (xs : list A) (body : A -> proc unit) :
  (forall x, halts (body x)) -> halts (for_each xs body).
Proof.
  intros Hb. induction xs as [|x xs IH]; simpl.
  - apply halts_nil.
  - apply halts_bind; [apply Hb | by intros _].
Qed.

Lemma run_seqkit_rmdup_halts os input_file output_file :
  halts (run_seqkit_rmdup os input_file output_file).
Proof.
  intros pre cmd rc post Ht Hrc.
  destruct (run_seqkit_rmdup_cases os input_file output_file)
    as [E|[E|[[_ E]|(rc' & ? & _ & E)]]]; rewrite E in Ht; rewrite E;
    cbn [trace res] in *.
  - by destruct pre.
  - destruct pre as [|? [|??]]; simplify_eq/=.
  - destruct pre as [|? [|? [|??]]]; simplify_eq/=.
  - destruct pre as [|? [|? [|??]]]; by simplify_eq/=.
Qed.

Lemma remove_duplicates_halts os input_path output_dir :
  halts (remove_duplicates os input_path output_dir).
Proof.
  unfold remove_duplicates. destruct (isfile os input_path).
  { apply run_seqkit_rmdup_halts. }
  destruct (isdir os input_path).
  - apply halts_for_each. intros [[root dirs] files].
    apply halts_for_each. intros file.
    destruct (endswith _ file); [apply run_seqkit_rmdup_halts | apply halts_nil].
  - intros [|? [|??]] ??? Ht; simplify_eq/=.
Qed.

(** X16. The run stops at the first failure: a call of the tool that
    exits with a status other than zero is the last event of the run, no
    file after it is opened or processed, and every call before it
    exited with status zero. *)
Theorem X16_first_failure_stops_the_run (os : OS) (input_path output_dir : str)
    pre cmd returncode post :
  trace (remove_duplicates os input_path output_dir)
  = pre ++ Ran cmd returncode :: post ->
  returncode <> 0%Z ->
  post = []
  /\ res (remove_duplicates os input_path output_dir)
     = Raise (CalledProcessError returncode cmd)
  /\ forall cmd' returncode', Ran cmd' returncode' ∈ pre -> returncode' = 0%Z.
Proof.
  intros Ht Hrc.
  destruct (remove_duplicates_halts os input_path output_dir _ _ _ _ Ht Hrc)
    as [-> Hr].
  split_and!; [done..|]. intros cmd' rc' Hin.
  destruct (decide (rc' = 0%Z)) as [|Hrc']; [done|]. exfalso.
  apply list_elem_of_split in Hin as (l1 & l2 & ->).
  rewrite <- app_assoc in Ht. simpl in Ht.
  destruct (remove_duplicates_halts os input_path output_dir _ _ _ _ Ht Hrc')
    as [Hp _].
  by destruct l2.
Qed.

Lemma X16_first_failure_stops_the_run_witness :
  [] = ([] : list event)
  /\ res (remove_duplicates example_os (lit "in") (lit "out"))
     = Raise (CalledProcessError 1 (seqkit_cmd (lit "in/c.fasta")))
  /\ forall cmd' returncode',
       Ran cmd' returncode'
       ∈ [ Opened (lit "out/a.rmdup.fasta"); Ran (seqkit_cmd (lit "in/a.fasta")) 0;
           Opened (lit "out/c.rmdup.fasta") ] ->
       returncode' = 0%Z.
Proof.
  apply (X16_first_failure_stops_the_run example_os (lit "in") (lit "out")
           [ Opened (lit "out/a.rmdup.fasta"); Ran (seqkit_cmd (lit "in/a.fasta")) 0;
             Opened (lit "out/c.rmdup.fasta") ]
           (seqkit_cmd (lit "in/c.fasta")) 1 []).
  - by vm_compute.
  - lia.
Defined.

(** *** Which files are processed *)

Lemma for_each_Ok {A} (xs : list A) (body : A -> proc unit) :
  res (for_each xs body) = Ok tt ->
  trace (for_each xs body) = xs ≫= (fun x => trace (body x))
  /\ forall x, x ∈ xs -> res (body x) = Ok tt.
Proof.
  induction xs as [|x xs IH]; simpl.
  - intros _. split; [done|]. by intros x ?%elem_of_nil.
  - destruct (res (body x)) as [[]|e] eqn:E.
    + destruct (bind_Ok (body x) (fun _ => for_each xs body) tt E) as [-> ->].
      intros H. destruct (IH H) as [-> Hall]. split; [done|].
      intros y [->|Hy]%elem_of_cons; auto.
    + destruct (bind_Raise (body x) (fun _ => for_each xs body) e E) as [_ ->].
      done.
Qed.

Lemma run_seqkit_rmdup_Ok os input_file output_file :
  res (run_seqkit_rmdup os input_file output_file) = Ok tt ->
  trace (run_seqkit_rmdup os input_file output_file)
  = [ Opened output_file; Ran (seqkit_cmd input_file) 0 ].
Proof.
  destruct (run_seqkit_rmdup_cases os input_file output_file)
    as [E|[E|[[_ E]|(rc' & ? & _ & E)]]]; rewrite E; by cbn [trace res].
Qed.

(** X17. A run over a directory that ends without an exception has
    processed every file whose name ends in [.fasta], once each and in
    the order of the walk, opening the output of a file and then running
    the tool on it with exit status zero; no other file is touched and
    nothing is printed. *)
Theorem X17_directory_run_processes_fasta_files (os : OS)
    (input_path output_dir : str) :
  isfile os input_path = false ->
  isdir os input_path = true ->
  res (remove_duplicates os input_path output_dir) = Ok tt ->
  trace (remove_duplicates os input_path output_dir)
  = walk os input_path ≫= (fun '(root, dirs, files) =>
      files ≫= (fun file =>
        if endswith (lit ".fasta") file
        then file_events output_dir root file 0
        else [])).
Proof.
  intros Hf Hd. unfold remove_duplicates. rewrite Hf, Hd. intros Hres.
  destruct (for_each_Ok _ _ Hres) as [-> Hall].
  apply Forall_bind_ext, Forall_forall. intros [[root dirs] files] Hin.
  destruct (for_each_Ok _ _ (Hall _ Hin)) as [-> Hfiles].
  apply Forall_bind_ext, Forall_forall. intros file Hfile.
  specialize (Hfiles file Hfile). cbv beta in *.
  destruct (endswith (lit ".fasta") file); [|done].
  by rewrite run_seqkit_rmdup_Ok.
Qed.

Lemma X17_directory_run_processes_fasta_files_witness :
  trace (remove_duplicates example_os_ok (lit "in") (lit "out"))
  = walk example_os_ok (lit "in") ≫= (fun '(root, dirs, files) =>
      files ≫= (fun file =>
        if endswith (lit ".fasta") file
        then file_events (lit "out") root file 0
        else [])).
Proof.
  apply (X17_directory_run_processes_fasta_files example_os_ok (lit "in") (lit "out"));
    by vm_compute.
Defined.

Lemma all_events_bind P (p : proc unit) (k : unit -> proc unit) :
  all_events P p -> (forall a, all_events P (k a)) -> all_events P (p ≫= k).
Proof.
  intros Hp Hk ev Hin. destruct (res p) as [a|e] eqn:E.
  - destruct (bind_Ok p k a E) as [Et _]. rewrite Et in Hin.
    apply elem_of_app in Hin as [Hin|Hin]; [by apply Hp | by apply (Hk a)].
  - destruct (bind_Raise p k e E) as [Et _]. rewrite Et in Hin. by apply Hp.
Qed.

Lemma all_events_for_each {A} P (xs : list A) (body : A -> proc unit) :
  (forall x, x ∈ xs -> all_events P (body x)) -> all_events P (for_each xs body).
Proof.
  induction xs as [|x xs IH]; intros Hb; simpl.
  - by intros ev ?%elem_of_nil.
  - apply all_events_bind; [apply Hb; by left|].
    intros _. apply IH. intros y Hy. apply Hb. by right.
Qed.

Lemma run_seqkit_rmdup_events os input_file output_file :
  all_events (fun ev => exists rc, ev ∈ [ Opened output_file;
                                        Ran (seqkit_cmd input_file) rc ])
             (run_seqkit_rmdup os input_file output_file).
Proof.
  intros ev Hin.
  destruct (run_seqkit_rmdup_cases os input_file output_file)
    as [E|[E|[[_ E]|(rc' & ? & _ & E)]]]; rewrite E in Hin; cbn [trace] in Hin.
  - by apply elem_of_nil in Hin.
  - apply list_elem_of_singleton in Hin as ->. exists 0%Z. by left.
  - by exists 0%Z.
  - by exists rc'.
Qed.

(** X18. In a run over a directory, successful or not, every file
    opened and every call of the tool belongs to a file that the walk
    lists and whose name ends in [.fasta]: the call is on that file
    under its directory, and the output opened is named after it, in
    the output directory. *)
Theorem X18_only_fasta_files_are_touched (os : OS) (input_path output_dir : str)
    (ev : event) :
  isfile os input_path = false ->
  isdir os input_path = true ->
  ev ∈ trace (remove_duplicates os input_path output_dir) ->
  exists root dirs files file returncode,
    (root, dirs, files) ∈ walk os input_path
    /\ file ∈ files
    /\ endswith (lit ".fasta") file = true
    /\ ev ∈ file_events output_dir root file returncode.
Proof.
  intros Hf Hd. unfold remove_duplicates. rewrite Hf, Hd. revert ev.
  apply (all_events_for_each
           (fun ev => exists root dirs files file returncode,
              (root, dirs, files) ∈ walk os input_path /\ file ∈ files
              /\ endswith (lit ".fasta") file = true
              /\ ev ∈ file_events output_dir root file returncode)).
  intros [[root dirs] files] Hw. apply all_events_for_each. intros file Hfile.
  destruct (endswith (lit ".fasta") file) eqn:He.
  - intros ev Hin. apply run_seqkit_rmdup_events in Hin as [rc Hin].
    by exists root, dirs, files, file, rc.
  - by intros ev ?%elem_of_nil.
Qed.

Lemma X18_only_fasta_files_are_touched_witness :
  exists root dirs files file returncode,
    (root, dirs, files) ∈ walk example_os (lit "in")
    /\ file ∈ files
    /\ endswith (lit ".fasta") file = true
    /\ Ran (seqkit_cmd (lit "in/c.fasta")) 1
       ∈ file_events (lit "out") root file returncode.
Proof.
  apply (X18_only_fasta_files_are_touched example_os (lit "in") (lit "out")
           (Ran (seqkit_cmd (lit "in/c.fasta")) 1)).
  - reflexivity.
  - reflexivity.
  - vm_compute. do 3 (apply elem_of_cons; right). apply elem_of_cons; by left.
Defined.

(** *** The name of an output file *)

Lemma rfind_from_absent c s i last : c ∉ s -> rfind_from c s i last = last.
Proof.
  revert i last. induction s as [|x s IH]; intros i last Hn; [done|].
  apply not_elem_of_cons in Hn as [Hx Hn]. simpl.
  rewrite bool_decide_eq_false_2 by congruence. by apply IH.
Qed.

Lemma rfind_from_last c pre post i last :
  c ∉ post ->
  rfind_from c (pre ++ c :: post) i last = (i + Z.of_nat (length pre))%Z.
Proof.
  intros Hn. revert i last. induction pre as [|x pre IH]; intros i last; simpl.
  - rewrite bool_decide_eq_true_2 by done. rewrite rfind_from_absent by done. lia.
  - rewrite IH. lia.
Qed.

Lemma slice_prefix {A} (l1 l2 : list A) :
  slice (l1 ++ l2) 0 (Z.of_nat (length l1)) = l1.
Proof.
  unfold slice, adjust_index. rewrite length_app. simpl.
  rewrite (proj2 (Z.ltb_ge (Z.of_nat (length l1)) 0)) by lia.
  rewrite Z.min_l, Z.min_l by lia. rewrite Z.sub_0_r, Nat2Z.id.
  change (Z.to_nat 0) with 0. by rewrite drop_0, take_app_length.
Qed.

Lemma splitext_cases stem ext :
  ("/"%char ∉ stem) -> ("/"%char ∉ ext) -> ("."%char ∉ ext) ->
  splitext (stem ++ "."%char :: ext)
  = if existsb (fun c => negb (bool_decide (c = "."%char))) stem
    then (stem, "."%char :: ext)
    else (stem ++ "."%char :: ext, []).
Proof.
  intros Hs He Hd. unfold splitext, rfind.
  rewrite (rfind_from_absent "/"%char).
  2:{ rewrite elem_of_app, elem_of_cons. intros [?|[?|?]]; done. }
  rewrite rfind_from_last by done.
  replace (-1 <? 0 + Z.of_nat (length stem))%Z with true by (symmetry; apply Z.ltb_lt; lia).
  replace (-1 + 1)%Z with 0%Z by lia. rewrite Z.add_0_l, slice_prefix, Nat2Z.id.
  rewrite take_app_length, drop_app_length. done.
Qed.

Lemma basename_dir dir name :
  ("/"%char ∉ name) ->
  basename ((dir ++ ["/"%char]) ++ name) = name /\ basename name = name.
Proof.
  intros Hn. unfold basename, rfind. split.
  - replace (rfind_from "/"%char ((dir ++ ["/"%char]) ++ name) 0 (-1))
      with (Z.of_nat (length dir)).
    2:{ rewrite <- app_assoc. simpl. rewrite rfind_from_last by done. lia. }
    replace (Z.to_nat (Z.of_nat (length dir) + 1)) with (length (dir ++ ["/"%char]))
      by (rewrite length_app; simpl; lia).
    apply drop_app_length.
  - by rewrite rfind_from_absent.
Qed.

Lemma basename_prefix prefix name :
  prefix = [] \/ (exists d, prefix = d ++ ["/"%char]) ->
  ("/"%char ∉ name) ->
  basename (prefix ++ name) = name.
Proof.
  intros [->|[d ->]] Hn; by apply basename_dir.
Qed.

Lemma file_mode_output os input_path output_dir base :
  isfile os input_path = true ->
  (splitext (basename input_path)).1 = base ->
  let output_file := path_join output_dir (base ++ lit ".rmdup.fasta") in
  (can_open os output_file = false ->
   remove_duplicates os input_path output_dir
   = Proc [] (Raise (OSError output_file)))
  /\ (can_open os output_file = true ->
      exists rest,
        trace (remove_duplicates os input_path output_dir)
        = Opened output_file :: rest).
Proof.
  intros Hf Hb. cbv zeta. unfold remove_duplicates. rewrite Hf, Hb.
  unfold run_seqkit_rmdup, rmdup_name. split; intros ->; [done|].
  destruct (run os (seqkit_cmd input_path)) as [rc|]; [|by eexists].
  destruct (rc =? 0)%Z; by eexists.
Qed.

(** X19. For a single input file the extension is not checked, it is
    replaced: for a path [prefix ++ stem.ext] whose stem has a character
    other than a dot, the output file is [stem.rmdup.fasta] in the output
    directory, whatever [ext] is. If that file cannot be opened the run
    ends in [OSError] and the tool is not started; otherwise opening it
    is the first thing the run does. *)
Theorem X19_single_file_output_name (os : OS) (prefix stem ext output_dir : str) :
  prefix = [] \/ (exists d, prefix = d ++ ["/"%char]) ->
  ("/"%char ∉ stem) -> ("/"%char ∉ ext) -> ("."%char ∉ ext) ->
  (exists c, c ∈ stem /\ c <> "."%char) ->
  isfile os (prefix ++ stem ++ "."%char :: ext) = true ->
  let input_path := prefix ++ stem ++ "."%char :: ext in
  let output_file := path_join output_dir (stem ++ lit ".rmdup.fasta") in
  (can_open os output_file = false ->
   remove_duplicates os input_path output_dir
   = Proc [] (Raise (OSError output_file)))
  /\ (can_open os output_file = true ->
      exists rest,
        trace (remove_duplicates os input_path output_dir)
        = Opened output_file :: rest).
Proof.
  intros Hp Hs He Hd (c & Hc & Hdot) Hf. apply file_mode_output; [done|].
  rewrite basename_prefix; [|done|].
  2:{ rewrite elem_of_app, elem_of_cons. intros [?|[?|?]]; done. }
  rewrite splitext_cases by done.
  assert (existsb (fun c => negb (bool_decide (c = "."%char))) stem = true) as ->; [|done].
  apply existsb_exists. exists c. split; [by apply list_elem_of_In|].
  by rewrite bool_decide_eq_false_2.
Qed.

Lemma X19_single_file_output_name_witness :
  let os := {| isfile := fun p => true; isdir := fun p => false;
               walk := fun p => []; can_open := fun p => true;
               run := fun cmd => Some 0%Z |} in
  let input_path := lit "data/" ++ lit "h3n2" ++ "."%char :: lit "fa" in
  let output_file := path_join (lit "out") (lit "h3n2" ++ lit ".rmdup.fasta") in
  (can_open os output_file = false ->
   remove_duplicates os input_path (lit "out")
   = Proc [] (Raise (OSError output_file)))
  /\ (can_open os output_file = true ->
      exists rest,
        trace (remove_duplicates os input_path (lit "out"))
        = Opened output_file :: rest).
Proof.
  apply (X19_single_file_output_name
           {| isfile := fun p => true; isdir := fun p => false;
              walk := fun p => []; can_open := fun p => true;
              run := fun cmd => Some 0%Z |}
           (lit "data/") (lit "h3n2") (lit "fa") (lit "out")).
  - right. by exists (lit "data").
  - apply (bool_decide_unpack _). by vm_compute.
  - apply (bool_decide_unpack _). by vm_compute.
  - apply (bool_decide_unpack _). by vm_compute.
  - exists "h"%char. split; [apply elem_of_cons; by left | discriminate].
  - reflexivity.
Defined.

(** X20. A name that is dots up to its last dot (a hidden file such as
    [.fasta]) has no extension to replace: the whole name is kept and
    the output file is [name.rmdup.fasta]. *)
Theorem X20_hidden_file_keeps_its_name (os : OS) (prefix dots ext output_dir : str) :
  prefix = [] \/ (exists d, prefix = d ++ ["/"%char]) ->
  (forall c, c ∈ dots -> c = "."%char) ->
  ("/"%char ∉ ext) -> ("."%char ∉ ext) ->
  isfile os (prefix ++ dots ++ "."%char :: ext) = true ->
  let input_path := prefix ++ dots ++ "."%char :: ext in
  let output_file :=
    path_join output_dir ((dots ++ "."%char :: ext) ++ lit ".rmdup.fasta") in
  (can_open os output_file = false ->
   remove_duplicates os input_path output_dir
   = Proc [] (Raise (OSError output_file)))
  /\ (can_open os output_file = true ->
      exists rest,
        trace (remove_duplicates os input_path output_dir)
        = Opened output_file :: rest).
Proof.
  intros Hp Hdots He Hd Hf. apply file_mode_output; [done|].
  assert ("/"%char ∉ dots) as Hs by (intros H; by apply Hdots in H).
  rewrite basename_prefix; [|done|].
  2:{ rewrite elem_of_app, elem_of_cons. intros [?|[?|?]]; done. }
  rewrite splitext_cases by done.
  assert (existsb (fun c => negb (bool_decide (c = "."%char))) dots = false) as ->; [|done].
  apply not_true_is_false. intros (c & Hc & Hneg)%existsb_exists.
  apply list_elem_of_In, Hdots in Hc as ->. by rewrite bool_decide_eq_true_2 in Hneg.
Qed.

Lemma X20_hidden_file_keeps_its_name_witness :
  let os := {| isfile := fun p => true; isdir := fun p => false;
               walk := fun p => []; can_open := fun p => true;
               run := fun cmd => Some 0%Z |} in
  let input_path := lit "data/" ++ [] ++ "."%char :: lit "fasta" in
  let output_file :=
    path_join (lit "out") (([] ++ "."%char :: lit "fasta") ++ lit ".rmdup.fasta") in
  (can_open os output_file = false ->
   remove_duplicates os input_path (lit "out")
   = Proc [] (Raise (OSError output_file)))
  /\ (can_open os output_file = true ->
      exists rest,
        trace (remove_duplicates os input_path (lit "out"))
        = Opened output_file :: rest).
Proof.
  apply (X20_hidden_file_keeps_its_name
           {| isfile := fun p => true; isdir := fun p => false;
              walk := fun p => []; can_open := fun p => true;
              run := fun cmd => Some 0%Z |}
           (lit "data/") [] (lit "fasta") (lit "out")).
  - right. by exists (lit "data").
  - by intros c ?%elem_of_nil.
  - apply (bool_decide_unpack _). by vm_compute.
  - apply (bool_decide_unpack _). by vm_compute.
  - reflexivity.
Defined.

End DuplicateRemoverMore.
